(** * openspline: the NurbsCurve class (src/openspline/nurbs_curve.h)

    A shallow embedding of the curve wrapper [ospl::NurbsCurve<nd, T>] and of
    the interface it calls into (nurbs_evaluate.h and glm), followed by the
    properties of the wrapper: construction, evaluation dispatch, control
    point editing and the clamp / unclamp bookkeeping of the knot vector. *)

From Stdlib Require Import ZArith String Floats Lia.
From stdpp Require Import base list.

Local Open Scope nat_scope.

(** ** Outcomes of a member function

    A call returns normally, leaves by [throw std::logic_error(what)], or has
    no defined behaviour at all: [std::vector::operator[]] and [erase] are
    unchecked, so an index or range outside the vector is undefined
    behaviour, which the model keeps apart from every defined result. *)
Inductive outcome (A : Type) : Type :=
| Ok (a : A)
| Throw (what : string)
| Undefined.
Arguments Ok {A} a.
Arguments Throw {A} what.
Arguments Undefined {A}.

#[global] Instance outcome_ret : MRet outcome := fun A a => Ok a.
#[global] Instance outcome_bind : MBind outcome := fun A B f m =>
  match m with
  | Ok a => f a
  | Throw what => Throw what
  | Undefined => Undefined
  end.

(** [double] is IEEE 754 binary64, the kernel's primitive float. *)
Definition double : Type := float.

(** [unsigned int] to [uint8_t]: the evaluators are instantiated with a
    [uint8_t degree] (nurbs_evaluate.cpp) while the class stores [deg_] as
    an [unsigned int], so every call converts modulo 256. *)
Definition to_uint8 (n : nat) : nat := n mod 256.

(** [v[i]] for a C++ [int i]: the index is converted to [size_t], so a
    negative one is as out of range as one past the end. *)
Definition in_range {A} (v : list A) (i : Z) : Prop :=
  (0 <= i < Z.of_nat (length v))%Z.

#[global] Instance in_range_dec {A} (v : list A) (i : Z) : Decision (in_range v i).
Proof. unfold in_range. apply _. Defined.

(** ** The interface of nurbs_evaluate.h and glm

    Modelled from the spec: the header nurbs_evaluate.h (the evaluators
    [nurbsCurvePoint], [nurbsRationalCurvePoint], [nurbsCurveDerivatives] and
    the predicate [isValidRelation]) is not among the sources; only the
    explicit instantiations of nurbs_evaluate.cpp give the evaluators'
    signatures. The class below is that signature, generic in the template
    parameters: [T] is the scalar, [vecnt] is [glm::vec<nd, T>], and the
    reference an evaluator writes its result to is the function's result.
    [normalize] is [glm::normalize]. *)
Class NurbsEvaluate : Type := {
  T : Type;
  vecnt : Type;
  nurbsCurvePoint :
    double -> nat -> list double -> list vecnt -> vecnt;
  nurbsRationalCurvePoint :
    double -> nat -> list double -> list vecnt -> list T -> vecnt;
  nurbsCurveDerivatives :
    double -> nat -> list double -> list vecnt -> Z -> list vecnt;
  normalize : vecnt -> vecnt
}.

(** Modelled from the spec: what the spec promises of the absent
    [nurbsCurveDerivatives], "derivatives(u, degree, knots, controlPoints,
    nDers) -> sequence of nd+1 vectors [C, C', C'', ...]", one vector per
    derivative order from 0 to [nDers]. *)
Definition derivatives_sized (E : NurbsEvaluate) : Prop :=
  forall u degree knots controlPoints nDers,
    (0 <= nDers)%Z ->
    length (nurbsCurveDerivatives u degree knots controlPoints nDers)
    = Z.to_nat (nDers + 1).

(** Modelled from the spec: [isValidRelation], declared in the absent
    nurbs_evaluate.h. The spec's knot-count invariant, "length = degree +
    numControlPoints + 1"; the constructor's exception text states the same
    relation. *)
Definition isValidRelation (degree num_knots num_ctrl_pts : nat) : bool :=
  num_knots =? degree + num_ctrl_pts + 1.

(** ** The class [NurbsCurve<nd, T>] *)
Section NurbsCurve.
Context {E : NurbsEvaluate}.

(** The private data members, in the order of their declaration. *)
Record NurbsCurve : Type := mkNurbsCurve {
  deg_ : nat;
  knots_ : list double;
  cp_ : list vecnt;
  w_ : list T;
  isRat_ : bool;
  isClamp0_ : bool;
  isClamp1_ : bool;
  isClosed_ : bool
}.

(** Assignment to one member, the others kept. *)
Definition with_deg (v : nat) (c : NurbsCurve) : NurbsCurve :=
  mkNurbsCurve v (knots_ c) (cp_ c) (w_ c) (isRat_ c) (isClamp0_ c) (isClamp1_ c) (isClosed_ c).
Definition with_knots (v : list double) (c : NurbsCurve) : NurbsCurve :=
  mkNurbsCurve (deg_ c) v (cp_ c) (w_ c) (isRat_ c) (isClamp0_ c) (isClamp1_ c) (isClosed_ c).
Definition with_cp (v : list vecnt) (c : NurbsCurve) : NurbsCurve :=
  mkNurbsCurve (deg_ c) (knots_ c) v (w_ c) (isRat_ c) (isClamp0_ c) (isClamp1_ c) (isClosed_ c).
Definition with_w (v : list T) (c : NurbsCurve) : NurbsCurve :=
  mkNurbsCurve (deg_ c) (knots_ c) (cp_ c) v (isRat_ c) (isClamp0_ c) (isClamp1_ c) (isClosed_ c).
Definition with_isRat (v : bool) (c : NurbsCurve) : NurbsCurve :=
  mkNurbsCurve (deg_ c) (knots_ c) (cp_ c) (w_ c) v (isClamp0_ c) (isClamp1_ c) (isClosed_ c).
Definition with_isClamp0 (v : bool) (c : NurbsCurve) : NurbsCurve :=
  mkNurbsCurve (deg_ c) (knots_ c) (cp_ c) (w_ c) (isRat_ c) v (isClamp1_ c) (isClosed_ c).
Definition with_isClamp1 (v : bool) (c : NurbsCurve) : NurbsCurve :=
  mkNurbsCurve (deg_ c) (knots_ c) (cp_ c) (w_ c) (isRat_ c) (isClamp0_ c) v (isClosed_ c).

(** The scalar members have no initialiser: before a constructor's body
    runs they hold whatever the object's storage held. The model takes that
    content as an argument of the constructor. *)
Record Storage : Type := mkStorage {
  st_deg : nat;
  st_isRat : bool;
  st_isClamp0 : bool;
  st_isClamp1 : bool;
  st_isClosed : bool
}.

(** [NurbsCurve() {}]: the vectors are default-constructed (empty), the
    scalars are left as the storage has them. Every constructor starts from
    this state. *)
Definition NurbsCurve_default (s : Storage) : NurbsCurve :=
  mkNurbsCurve (st_deg s) [] [] [] (st_isRat s) (st_isClamp0 s) (st_isClamp1 s) (st_isClosed s).

(** [NurbsCurve(degree, knots, controlPoints)]. *)
Definition NurbsCurve_ctor (s : Storage) (degree : nat) (knots : list double)
    (controlPoints : list vecnt) : outcome NurbsCurve :=
  let this := NurbsCurve_default s in
  if negb (isValidRelation degree (length knots) (length controlPoints)) then
    Throw "nKnots != degree + nCtrlPts + 1"
  else
    let this := with_deg degree this in
    let this := with_knots knots this in
    let this := with_cp controlPoints this in
    let this := with_isRat false this in
    let this := with_isClamp0 false this in
    let this := with_isClamp1 false this in
    Ok this.

(** [NurbsCurve(degree, knots, controlPoints, weights)]. Its first statement,
    [NurbsCurve(degree, knots, controlPoints);], is an expression statement:
    it constructs a temporary curve (in storage [tmp]) that is destroyed at
    the end of the statement. An exception of that constructor propagates;
    otherwise [*this] is still in its default state when [w_] and [isRat_]
    are assigned. *)
Definition NurbsCurve_ctor_w (s tmp : Storage) (degree : nat) (knots : list double)
    (controlPoints : list vecnt) (weights : list T) : outcome NurbsCurve :=
  let this := NurbsCurve_default s in
  _ ← NurbsCurve_ctor tmp degree knots controlPoints;
  let this := with_w weights this in
  let this := with_isRat true this in
  Ok this.

(** [v[i]], unchecked. *)
Definition at_ {A} (v : list A) (i : Z) : outcome A :=
  if decide (in_range v i) then from_option Ok Undefined (v !! Z.to_nat i)
  else Undefined.

(** [point(u)]. *)
Definition point (c : NurbsCurve) (u : double) : vecnt :=
  if negb (isRat_ c) then
    nurbsCurvePoint u (to_uint8 (deg_ c)) (knots_ c) (cp_ c)
  else
    nurbsRationalCurvePoint u (to_uint8 (deg_ c)) (knots_ c) (cp_ c) (w_ c).

(** [pointAndDerivatives(u, nDers, ptder)]: the result is the content of
    [ptder] on return. The rational branch holds only a commented-out call
    and leaves [ptder] as the caller passed it. *)
Definition pointAndDerivatives (c : NurbsCurve) (u : double) (nDers : Z)
    (ptder : list vecnt) : list vecnt :=
  if negb (isRat_ c) then
    nurbsCurveDerivatives u (to_uint8 (deg_ c)) (knots_ c) (cp_ c) nDers
  else
    ptder.

(** [tangent(u)]: [ders] starts empty; [ders[1]] is read unchecked. *)
Definition tangent (c : NurbsCurve) (u : double) : outcome vecnt :=
  let ders := pointAndDerivatives c u 1 [] in
  d ← at_ ders 1;
  Ok (normalize d).

(** [controlPoint(i)]. *)
Definition controlPoint (c : NurbsCurve) (i : Z) : outcome vecnt :=
  at_ (cp_ c) i.

(** [setControlPoint(i, pt)]: [cp_[i] = pt], unchecked. *)
Definition setControlPoint (c : NurbsCurve) (i : Z) (pt : vecnt) : outcome NurbsCurve :=
  if decide (in_range (cp_ c) i) then Ok (with_cp (<[Z.to_nat i := pt]> (cp_ c)) c)
  else Undefined.

(** [controlPoints()]. *)
Definition controlPoints (c : NurbsCurve) : list vecnt := cp_ c.

(** [numControlPoints()]: [cp_.size()] converted to [int]. *)
Definition numControlPoints (c : NurbsCurve) : Z :=
  ((Z.of_nat (length (cp_ c)) + 2 ^ 31) mod 2 ^ 32 - 2 ^ 31)%Z.

(** [setRational(isRational)]. *)
Definition setRational (c : NurbsCurve) (isRational : bool) : NurbsCurve :=
  with_isRat isRational c.

(** [clampStart()]: [knots_[0]] is read unchecked, then [deg_] copies of it
    are inserted at the front. *)
Definition clampStart (c : NurbsCurve) : outcome NurbsCurve :=
  if isClamp0_ c then Ok c
  else
    startKnot ← at_ (knots_ c) 0;
    let c := with_knots (replicate (deg_ c) startKnot ++ knots_ c) c in
    Ok (with_isClamp0 true c).

(** [unclampStart()]: erases [[begin, begin + deg_)], a valid range only
    when the vector has at least [deg_] elements. *)
Definition unclampStart (c : NurbsCurve) : outcome NurbsCurve :=
  if negb (isClamp0_ c) then Ok c
  else if decide (deg_ c <= length (knots_ c)) then
    let c := with_knots (drop (deg_ c) (knots_ c)) c in
    Ok (with_isClamp0 false c)
  else Undefined.

(** [clampEnd()]: [knots_[knots_.size() - 1]] is read unchecked ([size() - 1]
    wraps to the largest [size_t] on an empty vector, which is out of range
    as well), then [deg_] copies of it are inserted at the end. *)
Definition clampEnd (c : NurbsCurve) : outcome NurbsCurve :=
  if isClamp1_ c then Ok c
  else
    endKnot ← at_ (knots_ c) (Z.of_nat (length (knots_ c)) - 1);
    let c := with_knots (knots_ c ++ replicate (deg_ c) endKnot) c in
    Ok (with_isClamp1 true c).

(** [unclampEnd()]: erases [[end - deg_, end)]. *)
Definition unclampEnd (c : NurbsCurve) : outcome NurbsCurve :=
  if negb (isClamp1_ c) then Ok c
  else if decide (deg_ c <= length (knots_ c)) then
    let c := with_knots (take (length (knots_ c) - deg_ c) (knots_ c)) c in
    Ok (with_isClamp1 false c)
  else Undefined.

(** [setClosed(flag)]: both branches hold a comment only. *)
Definition setClosed (c : NurbsCurve) (flag : bool) : NurbsCurve :=
  let c := if flag && negb (isClosed_ c) then c else c in
  let c := if negb flag && isClosed_ c then c else c in
  c.

(** ** The curve as a state machine

    The public member functions that can change the object, and the states
    a client can reach with them from the validating constructor. *)
Inductive method : Type :=
| SetControlPoint (i : Z) (pt : vecnt)
| SetRational (isRational : bool)
| ClampStart
| UnclampStart
| ClampEnd
| UnclampEnd
| SetClosed (flag : bool).

Definition call (m : method) (c : NurbsCurve) : outcome NurbsCurve :=
  match m with
  | SetControlPoint i pt => setControlPoint c i pt
  | SetRational isRational => Ok (setRational c isRational)
  | ClampStart => clampStart c
  | UnclampStart => unclampStart c
  | ClampEnd => clampEnd c
  | UnclampEnd => unclampEnd c
  | SetClosed flag => Ok (setClosed c flag)
  end.

Inductive reachable : NurbsCurve -> Prop :=
| reachable_ctor s degree knots controlPoints c :
    NurbsCurve_ctor s degree knots controlPoints = Ok c -> reachable c
| reachable_call m c c' :
    reachable c -> call m c = Ok c' -> reachable c'.

(** The knot-count relation of the constructor, on a curve's members. *)
Definition knot_count_invariant (c : NurbsCurve) : Prop :=
  length (knots_ c) = deg_ c + length (cp_ c) + 1.

(** The number of knots the clamp flags account for: each set flag stands
    for [deg_] knots inserted at its end of the vector. *)
Definition clamped_knot_count (c : NurbsCurve) : nat :=
  deg_ c + length (cp_ c) + 1
  + (if isClamp0_ c then deg_ c else 0)
  + (if isClamp1_ c then deg_ c else 0).

(** What a clamp operation on the start may change: the knot vector and
    [isClamp0_]. *)
Definition start_frame (c c' : NurbsCurve) : Prop :=
  deg_ c' = deg_ c /\ cp_ c' = cp_ c /\ w_ c' = w_ c
  /\ isRat_ c' = isRat_ c /\ isClamp1_ c' = isClamp1_ c /\ isClosed_ c' = isClosed_ c.

(** What a clamp operation on the end may change: the knot vector and
    [isClamp1_]. *)
Definition end_frame (c c' : NurbsCurve) : Prop :=
  deg_ c' = deg_ c /\ cp_ c' = cp_ c /\ w_ c' = w_ c
  /\ isRat_ c' = isRat_ c /\ isClamp0_ c' = isClamp0_ c /\ isClosed_ c' = isClosed_ c.

(** The states a client reaches from the curve [c0] with the methods. *)
Inductive reachable_from (c0 : NurbsCurve) : NurbsCurve -> Prop :=
| reachable_from_refl : reachable_from c0 c0
| reachable_from_call m c c' :
    reachable_from c0 c -> call m c = Ok c' -> reachable_from c0 c'.

(** The knot vector [knots] as the clamp operations extend it: [degree]
    copies of its first knot in front when [clamp0], [degree] copies of its
    last knot at the end when [clamp1]. *)
Definition clamped (degree : nat) (knots : list double) (clamp0 clamp1 : bool) : list double :=
  (if clamp0 then from_option (replicate degree) [] (head knots) else [])
  ++ knots
  ++ (if clamp1 then from_option (replicate degree) [] (last knots) else []).

End NurbsCurve.

(** ** The instantiation [NurbsCurve2d = NurbsCurve<2, double>]

    The evaluators of this instance are modelled from the spec (sections 4.1
    and 4.2); [glm::dvec2] and [glm::normalize] are glm's. All arithmetic is
    binary64. *)
Module Curve2d.
Local Open Scope float_scope.

(** [glm::dvec2]. *)
Record dvec2 : Type := mkdvec2 { vx : float; vy : float }.

Definition vzero : dvec2 := mkdvec2 0 0.
Definition vadd (a b : dvec2) : dvec2 := mkdvec2 (vx a + vx b) (vy a + vy b).
Definition vscale (s : float) (a : dvec2) : dvec2 := mkdvec2 (s * vx a) (s * vy a).
Definition dot (a b : dvec2) : float := vx a * vx b + vy a * vy b.

(** [glm::length(v)]. *)
Definition norm (v : dvec2) : float := sqrt (dot v v).

(** [glm::normalize(v)] is [v * inversesqrt(dot(v, v))], and
    [inversesqrt(s)] is [1 / sqrt(s)]. *)
Definition glm_normalize (v : dvec2) : dvec2 :=
  let s := 1 / sqrt (dot v v) in
  mkdvec2 (vx v * s) (vy v * s).

Definition knot (knots : list float) (i : nat) : float := nth i knots 0.
Definition ctrl (controlPoints : list dvec2) (i : nat) : dvec2 := nth i controlPoints vzero.
Definition float_of_nat (n : nat) : float := of_uint63 (Uint63.of_Z (Z.of_nat n)).

(** Modelled from the spec: "treat 0/0 as 0 by convention". *)
Definition ratio (a b : float) : float := if b =? 0 then 0 else a / b.

(** Modelled from the spec: [findSpan], "search the knot vector for the
    half-open interval [knots[i], knots[i+1]) containing u; special-cases
    u == knots[last relevant] to return the last valid span", with the
    clamped span selection outside the domain. The search is the linear
    one: the last index in [p .. n] whose knot is not above [u]. *)
Definition findSpan (u : float) (p : nat) (knots : list float) : nat :=
  let n := (length knots - p - 2)%nat in
  if knot knots (n + 1) <=? u then n
  else fold_left (fun span i => if knot knots i <=? u then i else span)
                 (seq p (n + 1 - p)) p.

(** Modelled from the spec: the Cox-de Boor recurrence for the basis
    function [i] of degree [p] at [u], written as the recurrence itself
    rather than as the table that accumulates it. *)
Fixpoint basis (knots : list float) (span : nat) (u : float) (p i : nat) : float :=
  match p with
  | O => if Nat.eqb i span then 1 else 0
  | S q =>
      ratio (u - knot knots i) (knot knots (i + p) - knot knots i)
        * basis knots span u q i
      + ratio (knot knots (i + p + 1) - u) (knot knots (i + p + 1) - knot knots (i + 1))
        * basis knots span u q (i + 1)
  end.

(** Modelled from the spec: "the standard derivative recurrence using
    lower-order basis values and knot-interval reciprocals"; the derivative
    of order [k] of a basis function of degree below [k] is zero. *)
Fixpoint basisDerivative (knots : list float) (span : nat) (u : float)
    (k p i : nat) : float :=
  match k with
  | O => basis knots span u p i
  | S k' =>
      match p with
      | O => 0
      | S q =>
          float_of_nat p
          * (ratio (basisDerivative knots span u k' q i)
                   (knot knots (i + p) - knot knots i)
             - ratio (basisDerivative knots span u k' q (i + 1))
                     (knot knots (i + p + 1) - knot knots (i + 1)))
      end
  end.

(** The weighted sum over the [degree + 1] control points of the span. *)
Definition localSum (coefficient : nat -> float) (span degree : nat)
    (controlPoints : list dvec2) : dvec2 :=
  fold_left (fun acc j =>
               let i := (span - degree + j)%nat in
               vadd acc (vscale (coefficient i) (ctrl controlPoints i)))
            (seq 0 (S degree)) vzero.

(** Modelled from the spec: [point(u, degree, knots, controlPoints)],
    "result = sum of basis[j] * controlPoints[span - degree + j] for j in
    [0, degree]". *)
Definition curvePoint (u : float) (degree : nat) (knots : list float)
    (controlPoints : list dvec2) : dvec2 :=
  let span := findSpan u degree knots in
  localSum (basis knots span u degree) span degree controlPoints.

(** Modelled from the spec: [rationalPoint], the same sum over the control
    points lifted to homogeneous coordinates, projected back by the weight
    component. *)
Definition rationalCurvePoint (u : float) (degree : nat) (knots : list float)
    (controlPoints : list dvec2) (weights : list float) : dvec2 :=
  let span := findSpan u degree knots in
  let a := localSum (fun i => basis knots span u degree i * nth i weights 0)
                    span degree controlPoints in
  let w := fold_left (fun acc j =>
                        let i := (span - degree + j)%nat in
                        acc + basis knots span u degree i * nth i weights 0)
                     (seq 0 (S degree)) 0 in
  mkdvec2 (vx a / w) (vy a / w).

(** Modelled from the spec: [derivatives], "the same local weighted-sum
    pattern per derivative order", for the orders 0 to [nDers]. *)
Definition curveDerivatives (u : float) (degree : nat) (knots : list float)
    (controlPoints : list dvec2) (nDers : Z) : list dvec2 :=
  let span := findSpan u degree knots in
  map (fun k => localSum (basisDerivative knots span u k degree) span degree controlPoints)
      (seq 0 (Z.to_nat (nDers + 1))).

#[global] Instance evaluate2d : NurbsEvaluate := {|
  T := float;
  vecnt := dvec2;
  nurbsCurvePoint := curvePoint;
  nurbsRationalCurvePoint := rationalCurvePoint;
  nurbsCurveDerivatives := curveDerivatives;
  normalize := glm_normalize
|}.

(** [typedef NurbsCurve<2, double> NurbsCurve2d]. *)
Definition NurbsCurve2d : Type := @NurbsCurve evaluate2d.

End Curve2d.

(** Concrete curves of [NurbsCurve2d] used as inputs below. *)
Module Examples.
Import Curve2d.
Local Open Scope float_scope.

(** Storage that happens to hold zeros. *)
Definition zeroed : Storage := mkStorage 0 false false false false.

Definition clamped_knots : list double := [0; 0; 0; 0; 1; 1; 1; 1].
Definition collinear : list dvec2 :=
  [mkdvec2 0 0; mkdvec2 1 0; mkdvec2 2 0; mkdvec2 3 0].

(** The cubic of the spec's concrete scenario, as the three-argument
    constructor builds it in [zeroed] storage. *)
Definition line : NurbsCurve2d :=
  mkNurbsCurve 3 clamped_knots collinear [] false false false false.

(** [line] after [clampStart()]. *)
Definition line_clamped : NurbsCurve2d :=
  mkNurbsCurve 3 ([0; 0; 0] ++ clamped_knots) collinear [] false true false false.

(** [line] after [setControlPoint(1, (5, 5))]. *)
Definition line_edited : NurbsCurve2d :=
  mkNurbsCurve 3 clamped_knots
    [mkdvec2 0 0; mkdvec2 5 5; mkdvec2 2 0; mkdvec2 3 0] [] false false false false.

(** [line] after [setRational(true)]. *)
Definition line_rational : NurbsCurve2d :=
  mkNurbsCurve 3 clamped_knots collinear [] true false false false.

(** A degree 1 curve whose two control points coincide. *)
Definition coincident : NurbsCurve2d :=
  mkNurbsCurve 1 [0; 0; 1; 1] [mkdvec2 1 1; mkdvec2 1 1] [] false false false false.

(** A degree 0 curve on the single knot 0, with no control point. *)
Definition pointless : NurbsCurve2d :=
  mkNurbsCurve 0 [0] [] [] false false false false.

(** [line] after [clampStart()] and [clampEnd()]. *)
Definition line_clamped_both : NurbsCurve2d :=
  mkNurbsCurve 3 ([0; 0; 0] ++ clamped_knots ++ [1; 1; 1]) collinear [] false true true false.

(** What the four-argument constructor returns, in [zeroed] storage, for
    the arguments of [line] and four unit weights. *)
Definition line_weighted : NurbsCurve2d :=
  mkNurbsCurve 0 [] [] [1; 1; 1; 1] true false false false.

End Examples.

(** * Properties *)

Section Construction.
Context {E : NurbsEvaluate}.

Lemma isValidRelation_spec degree num_knots num_ctrl_pts :
  isValidRelation degree num_knots num_ctrl_pts = true
  <-> num_knots = degree + num_ctrl_pts + 1.
Proof. unfold isValidRelation. apply Nat.eqb_eq. Qed.

(** A successful construction stores its arguments and clears the flags it
    assigns; [w_] stays empty and [isClosed_] is never written. *)
Lemma NurbsCurve_ctor_valid s degree knots (controlPoints : list vecnt) :
  length knots = degree + length controlPoints + 1 ->
  NurbsCurve_ctor s degree knots controlPoints
  = Ok (mkNurbsCurve degree knots controlPoints [] false false false (st_isClosed s)).
Proof.
  intros Hrel. unfold NurbsCurve_ctor.
  apply isValidRelation_spec in Hrel. rewrite Hrel. reflexivity.
Qed.

Lemma NurbsCurve_ctor_invalid s degree knots (controlPoints : list vecnt) :
  length knots <> degree + length controlPoints + 1 ->
  NurbsCurve_ctor s degree knots controlPoints = Throw "nKnots != degree + nCtrlPts + 1".
Proof.
  intros Hrel. unfold NurbsCurve_ctor.
  destruct (isValidRelation _ _ _) eqn:Hv; [|reflexivity].
  apply isValidRelation_spec in Hv. contradiction.
Qed.

Lemma NurbsCurve_ctor_Ok s degree knots (controlPoints : list vecnt) c :
  NurbsCurve_ctor s degree knots controlPoints = Ok c ->
  length knots = degree + length controlPoints + 1
  /\ c = mkNurbsCurve degree knots controlPoints [] false false false (st_isClosed s).
Proof.
  intros Hc.
  destruct (decide (length knots = degree + length controlPoints + 1)) as [Hrel|Hrel].
  - rewrite (NurbsCurve_ctor_valid _ _ _ _ Hrel) in Hc. split; congruence.
  - rewrite (NurbsCurve_ctor_invalid _ _ _ _ Hrel) in Hc. discriminate.
Qed.

(** C1: the three-argument constructor throws, with the text of its
    [std::logic_error], exactly when the number of knots differs from
    degree + number of control points + 1, and returns a curve exactly when
    the two are equal; no third outcome exists. In particular degree 3 with
    the knots 0,0,0,0,1,1,1,1 and any four control points constructs a
    curve. *)
Theorem NurbsCurve_ctor_fails_iff_mismatch s degree knots (controlPoints : list vecnt) :
  (NurbsCurve_ctor s degree knots controlPoints = Throw "nKnots != degree + nCtrlPts + 1"
   <-> length knots <> degree + length controlPoints + 1)
  /\ ((exists c, NurbsCurve_ctor s degree knots controlPoints = Ok c)
      <-> length knots = degree + length controlPoints + 1)
  /\ NurbsCurve_ctor s degree knots controlPoints <> Undefined
  /\ (forall p0 p1 p2 p3 : vecnt,
        exists c, NurbsCurve_ctor s 3 Examples.clamped_knots [p0; p1; p2; p3] = Ok c).
Proof.
  assert (Hex : forall p0 p1 p2 p3 : vecnt,
            exists c, NurbsCurve_ctor s 3 Examples.clamped_knots [p0; p1; p2; p3] = Ok c).
  { intros p0 p1 p2 p3. rewrite NurbsCurve_ctor_valid by reflexivity. eauto. }
  destruct (decide (length knots = degree + length controlPoints + 1)) as [Hrel|Hrel].
  - rewrite (NurbsCurve_ctor_valid _ _ _ _ Hrel).
    split; [split; [discriminate | contradiction] |].
    split; [split; eauto |].
    split; [discriminate | exact Hex].
  - rewrite (NurbsCurve_ctor_invalid _ _ _ _ Hrel).
    split; [split; auto |].
    split; [split; [intros [c Hc]; discriminate | contradiction] |].
    split; [discriminate | exact Hex].
Qed.

End Construction.

Section WeightedConstruction.
Context {E : NurbsEvaluate}.

(** On arguments that satisfy the knot-count relation the four-argument
    constructor returns the default state with only [w_] and [isRat_]
    assigned: the curve it validated was the temporary. *)
Lemma NurbsCurve_ctor_w_valid s tmp degree knots (controlPoints : list vecnt) weights :
  length knots = degree + length controlPoints + 1 ->
  NurbsCurve_ctor_w s tmp degree knots controlPoints weights
  = Ok (mkNurbsCurve (st_deg s) [] [] weights true
          (st_isClamp0 s) (st_isClamp1 s) (st_isClosed s)).
Proof.
  intros Hrel. unfold NurbsCurve_ctor_w.
  rewrite (NurbsCurve_ctor_valid _ _ _ _ Hrel). reflexivity.
Qed.

(** The exception of the temporary's constructor leaves the four-argument
    constructor: no curve is produced from arguments that violate the
    relation. *)
Lemma NurbsCurve_ctor_w_invalid s tmp degree knots (controlPoints : list vecnt) weights :
  length knots <> degree + length controlPoints + 1 ->
  NurbsCurve_ctor_w s tmp degree knots controlPoints weights
  = Throw "nKnots != degree + nCtrlPts + 1".
Proof.
  intros Hrel. unfold NurbsCurve_ctor_w.
  rewrite (NurbsCurve_ctor_invalid _ _ _ _ Hrel). reflexivity.
Qed.

(** The stored knot vector of a curve built with weights never equals the
    knot vector it was given: a valid one has at least one knot. *)
Lemma NurbsCurve_ctor_w_drops_knots s tmp degree knots (controlPoints : list vecnt) weights c :
  NurbsCurve_ctor_w s tmp degree knots controlPoints weights = Ok c ->
  knots_ c = [] /\ cp_ c = [] /\ knots_ c <> knots /\ ~ knot_count_invariant c.
Proof.
  intros Hc.
  destruct (decide (length knots = degree + length controlPoints + 1)) as [Hrel|Hrel].
  - rewrite (NurbsCurve_ctor_w_valid _ _ _ _ _ _ Hrel) in Hc.
    injection Hc as <-. unfold knot_count_invariant. simpl.
    repeat split; [|lia].
    intros <-. simpl in Hrel. lia.
  - rewrite (NurbsCurve_ctor_w_invalid _ _ _ _ _ _ Hrel) in Hc. discriminate.
Qed.

(** C2: construction with weights, evaluated on degree 3, the knots
    0,0,0,0,1,1,1,1, four control points and four weights. The arguments
    satisfy the knot-count relation, and the curve returned has the degree
    its storage held, no knots and no control points; only the weights and
    the rational flag are the ones given. *)
Theorem NurbsCurve_ctor_w_loses_arguments s tmp (p0 p1 p2 p3 : vecnt) (w0 w1 w2 w3 : T) :
  NurbsCurve_ctor_w s tmp 3 Examples.clamped_knots [p0; p1; p2; p3] [w0; w1; w2; w3]
  = Ok (mkNurbsCurve (st_deg s) [] [] [w0; w1; w2; w3] true
          (st_isClamp0 s) (st_isClamp1 s) (st_isClosed s)).
Proof. apply NurbsCurve_ctor_w_valid. reflexivity. Qed.

End WeightedConstruction.

Section Evaluation.
Context {E : NurbsEvaluate}.

Lemma at_Ok {A} (v : list A) (i : Z) (a : A) :
  at_ v i = Ok a <-> in_range v i /\ v !! Z.to_nat i = Some a.
Proof.
  unfold at_. destruct (decide (in_range v i)) as [Hi|Hi].
  - destruct (v !! Z.to_nat i) as [b|] eqn:Hb; simpl.
    + split; [intros [= ->]; auto | intros [_ [= ->]]; reflexivity].
    + split; [discriminate | intros [_ ?]; discriminate].
  - split; [discriminate | intros [? _]; contradiction].
Qed.

Lemma at_in_range {A} (v : list A) (i : Z) :
  in_range v i -> exists a, at_ v i = Ok a.
Proof.
  intros Hi. unfold at_. rewrite decide_True by exact Hi.
  destruct (lookup_lt_is_Some_2 v (Z.to_nat i)) as [a Ha].
  - unfold in_range in Hi. lia.
  - exists a. rewrite Ha. reflexivity.
Qed.

Lemma at_out_of_range {A} (v : list A) (i : Z) :
  ~ in_range v i -> at_ v i = Undefined.
Proof. intros Hi. unfold at_. rewrite decide_False by exact Hi. reflexivity. Qed.

Lemma at_never_throws {A} (v : list A) (i : Z) what : at_ v i <> Throw what.
Proof.
  unfold at_. destruct (decide _); [|discriminate].
  destruct (v !! Z.to_nat i); discriminate.
Qed.

(** C3 (amended): on a non-rational curve [pointAndDerivatives] hands
    [ptder] to [nurbsCurveDerivatives], so with that evaluator sized as the
    spec says it holds [nDers + 1] vectors for every order [nDers >= 0]; on
    a rational curve the sequence comes back exactly as the caller passed
    it, whatever its length. *)
Theorem pointAndDerivatives_size (c : NurbsCurve) u nDers ptder :
  derivatives_sized E ->
  (isRat_ c = false -> (0 <= nDers)%Z ->
     length (pointAndDerivatives c u nDers ptder) = Z.to_nat (nDers + 1))
  /\ (isRat_ c = true -> pointAndDerivatives c u nDers ptder = ptder).
Proof.
  intros Hsized. unfold pointAndDerivatives. split.
  - intros -> HnDers. simpl. apply Hsized. exact HnDers.
  - intros ->. reflexivity.
Qed.

(** C4 (amended): [tangent] has no failure path. It never throws; on a
    non-rational curve, with [nurbsCurveDerivatives] sized as the spec says,
    it returns [glm::normalize] of the first derivative, the second of the
    two vectors the evaluator produced, without looking at its magnitude. *)
Theorem tangent_normalizes_unchecked (c : NurbsCurve) u :
  (forall what, tangent c u <> Throw what)
  /\ (derivatives_sized E -> isRat_ c = false ->
      exists C C',
        nurbsCurveDerivatives u (to_uint8 (deg_ c)) (knots_ c) (cp_ c) 1 = [C; C']
        /\ tangent c u = Ok (normalize C')).
Proof.
  split.
  - intros what. unfold tangent.
    destruct (at_ _ 1) as [d| |] eqn:Hd; simpl; try discriminate.
    exfalso. exact (at_never_throws _ _ _ Hd).
  - intros Hsized Hrat. unfold tangent, pointAndDerivatives. rewrite Hrat. simpl.
    specialize (Hsized u (to_uint8 (deg_ c)) (knots_ c) (cp_ c) 1%Z ltac:(lia)).
    destruct (nurbsCurveDerivatives _ _ _ _ _) as [|C [|C' [|? ?]]]; try discriminate.
    exists C, C'. split; reflexivity.
Qed.

(** A rational curve has no tangent: [ders] is still empty when [ders[1]]
    is read. *)
Lemma tangent_rational_undefined (c : NurbsCurve) u :
  isRat_ c = true -> tangent c u = Undefined.
Proof. intros Hrat. unfold tangent, pointAndDerivatives. rewrite Hrat. reflexivity. Qed.

(** C10 (amended): a curve built by the three-argument constructor has no
    weights; after [setRational(true)], [point(u)] is the rational
    evaluator's result on the stored degree, knots and control points and
    the empty weight sequence. Nothing compares the two lengths, and the
    weights are the shorter sequence whenever there is a control point. *)
Theorem point_rational_without_weights s degree knots (controlPoints : list vecnt) c u :
  NurbsCurve_ctor s degree knots controlPoints = Ok c ->
  w_ (setRational c true) = []
  /\ cp_ (setRational c true) = controlPoints
  /\ point (setRational c true) u
     = nurbsRationalCurvePoint u (to_uint8 degree) knots controlPoints []
  /\ (controlPoints <> [] ->
      length (w_ (setRational c true)) < length (cp_ (setRational c true))).
Proof.
  intros Hc. apply NurbsCurve_ctor_Ok in Hc as [_ ->].
  repeat split. simpl. intros Hne. destruct controlPoints; [contradiction | simpl; lia].
Qed.

(** Without [setRational(true)] the same curve is evaluated by the
    polynomial evaluator, which takes no weights. *)
Lemma point_after_ctor s degree knots (controlPoints : list vecnt) c u :
  NurbsCurve_ctor s degree knots controlPoints = Ok c ->
  point c u = nurbsCurvePoint u (to_uint8 degree) knots controlPoints.
Proof. intros Hc. apply NurbsCurve_ctor_Ok in Hc as [_ ->]. reflexivity. Qed.

End Evaluation.

Section Clamping.
Context {E : NurbsEvaluate}.

Lemma at_last {A} (v : list A) (a : A) :
  at_ (v ++ [a]) (Z.of_nat (length (v ++ [a])) - 1) = Ok a.
Proof.
  unfold at_. rewrite length_app. simpl.
  rewrite decide_True by (unfold in_range; rewrite length_app; simpl; lia).
  replace (Z.to_nat (Z.of_nat (length v + 1) - 1)) with (length v + 0) by lia.
  rewrite lookup_app_r by lia.
  replace (length v + 0 - length v) with 0 by lia. reflexivity.
Qed.

(** A non-empty vector seen from its back. *)
Lemma nonempty_snoc {A} (v : list A) :
  v <> [] -> exists v' a, v = v' ++ [a].
Proof.
  intros Hv. destruct (decide (v = [])) as [->|_]; [contradiction|].
  induction v as [|b v IH] using rev_ind; [contradiction|]. eauto.
Qed.

Lemma clampStart_unclampStart (c : NurbsCurve) :
  knots_ c <> [] -> isClamp0_ c = false ->
  clampStart c ≫= unclampStart = Ok c.
Proof.
  destruct c as [deg knots cp w rat c0 c1 cl]. simpl. intros Hk ->.
  destruct knots as [|startKnot knots]; [contradiction|].
  unfold clampStart. simpl.
  unfold unclampStart. simpl.
  rewrite decide_True by (rewrite length_app, length_replicate; lia).
  unfold with_knots, with_isClamp0. simpl.
  rewrite drop_app_length' by (rewrite length_replicate; reflexivity).
  reflexivity.
Qed.

Lemma clampEnd_unclampEnd (c : NurbsCurve) :
  knots_ c <> [] -> isClamp1_ c = false ->
  clampEnd c ≫= unclampEnd = Ok c.
Proof.
  destruct c as [deg knots cp w rat c0 c1 cl]. simpl. intros Hk ->.
  destruct (nonempty_snoc knots Hk) as (knots' & endKnot & ->).
  unfold clampEnd. simpl. rewrite at_last. simpl.
  unfold unclampEnd. simpl.
  rewrite decide_True by (rewrite !length_app, length_replicate; lia).
  unfold with_knots, with_isClamp1. simpl.
  rewrite take_app_length' by (rewrite !length_app, length_replicate; simpl; lia).
  reflexivity.
Qed.

(** C5 (amended): on a curve with at least one knot, [clampStart()] followed
    by [unclampStart()] gives back the curve it started from, knot for knot,
    when the start was not clamped before; the same holds for [clampEnd()]
    and [unclampEnd()] when the end was not clamped before. *)
Theorem clamp_unclamp_inverse (c : NurbsCurve) :
  knots_ c <> [] ->
  (isClamp0_ c = false -> clampStart c ≫= unclampStart = Ok c)
  /\ (isClamp1_ c = false -> clampEnd c ≫= unclampEnd = Ok c).
Proof.
  intros Hk. split; intros Hflag.
  - apply clampStart_unclampStart; assumption.
  - apply clampEnd_unclampEnd; assumption.
Qed.

(** On an end that is already clamped, the clamp does nothing and the
    unclamp that follows removes [deg_] knots. *)
Lemma clampStart_unclampStart_clamped (c : NurbsCurve) :
  isClamp0_ c = true -> deg_ c <= length (knots_ c) ->
  clampStart c ≫= unclampStart
  = Ok (with_isClamp0 false (with_knots (drop (deg_ c) (knots_ c)) c)).
Proof.
  intros Hflag Hdeg. unfold clampStart. rewrite Hflag. simpl.
  unfold unclampStart. rewrite Hflag. simpl.
  rewrite decide_True by exact Hdeg. reflexivity.
Qed.

Lemma clampStart_Ok (c c' : NurbsCurve) :
  clampStart c = Ok c' -> isClamp0_ c' = true /\ start_frame c c'.
Proof.
  unfold clampStart, start_frame. destruct (isClamp0_ c) eqn:Hflag.
  - intros [= <-]. auto 10.
  - destruct (at_ (knots_ c) 0) as [startKnot| |]; simpl; try discriminate.
    intros [= <-]. simpl. auto 10.
Qed.

Lemma unclampStart_Ok (c c' : NurbsCurve) :
  unclampStart c = Ok c' -> isClamp0_ c' = false /\ start_frame c c'.
Proof.
  unfold unclampStart, start_frame. destruct (isClamp0_ c) eqn:Hflag; simpl.
  - destruct (decide _); [|discriminate]. intros [= <-]. simpl. auto 10.
  - intros [= <-]. auto 10.
Qed.

Lemma clampEnd_Ok (c c' : NurbsCurve) :
  clampEnd c = Ok c' -> isClamp1_ c' = true /\ end_frame c c'.
Proof.
  unfold clampEnd, end_frame. destruct (isClamp1_ c) eqn:Hflag.
  - intros [= <-]. auto 10.
  - destruct (at_ (knots_ c) _) as [endKnot| |]; simpl; try discriminate.
    intros [= <-]. simpl. auto 10.
Qed.

Lemma unclampEnd_Ok (c c' : NurbsCurve) :
  unclampEnd c = Ok c' -> isClamp1_ c' = false /\ end_frame c c'.
Proof.
  unfold unclampEnd, end_frame. destruct (isClamp1_ c) eqn:Hflag; simpl.
  - destruct (decide _); [|discriminate]. intros [= <-]. simpl. auto 10.
  - intros [= <-]. auto 10.
Qed.

(** An operation that leaves a curve with its flag in the state the
    operation aims for returns at once when called again. *)
Lemma clampStart_clamped (c : NurbsCurve) : isClamp0_ c = true -> clampStart c = Ok c.
Proof. intros Hflag. unfold clampStart. rewrite Hflag. reflexivity. Qed.

Lemma unclampStart_unclamped (c : NurbsCurve) : isClamp0_ c = false -> unclampStart c = Ok c.
Proof. intros Hflag. unfold unclampStart. rewrite Hflag. reflexivity. Qed.

Lemma clampEnd_clamped (c : NurbsCurve) : isClamp1_ c = true -> clampEnd c = Ok c.
Proof. intros Hflag. unfold clampEnd. rewrite Hflag. reflexivity. Qed.

Lemma unclampEnd_unclamped (c : NurbsCurve) : isClamp1_ c = false -> unclampEnd c = Ok c.
Proof. intros Hflag. unfold unclampEnd. rewrite Hflag. reflexivity. Qed.

(** Calling [op] again on the outcome of [op]; used with the four
    lemmas above. *)
Lemma twice_once (op : NurbsCurve -> outcome NurbsCurve) (c : NurbsCurve) :
  (forall c', op c = Ok c' -> op c' = Ok c') -> op c ≫= op = op c.
Proof.
  intros Hagain. destruct (op c) as [c'| |] eqn:Hop; simpl; auto.
Qed.

(** C7: each of [clampStart], [unclampStart], [clampEnd] and [unclampEnd],
    called twice in a row, has the outcome of calling it once; when it
    returns, its own clamp flag is set (by a clamp) or cleared (by an
    unclamp), and the other clamp flag, the rational and closed flags, the
    degree, the control points and the weights are as before. *)
Theorem clamp_operations_idempotent (c : NurbsCurve) :
  (clampStart c ≫= clampStart = clampStart c
   /\ forall c', clampStart c = Ok c' -> isClamp0_ c' = true /\ start_frame c c')
  /\ (unclampStart c ≫= unclampStart = unclampStart c
   /\ forall c', unclampStart c = Ok c' -> isClamp0_ c' = false /\ start_frame c c')
  /\ (clampEnd c ≫= clampEnd = clampEnd c
   /\ forall c', clampEnd c = Ok c' -> isClamp1_ c' = true /\ end_frame c c')
  /\ (unclampEnd c ≫= unclampEnd = unclampEnd c
   /\ forall c', unclampEnd c = Ok c' -> isClamp1_ c' = false /\ end_frame c c').
Proof.
  repeat apply conj.
  - apply twice_once. intros c' Hc'. apply clampStart_clamped, (clampStart_Ok c c' Hc').
  - apply clampStart_Ok.
  - apply twice_once. intros c' Hc'. apply unclampStart_unclamped, (unclampStart_Ok c c' Hc').
  - apply unclampStart_Ok.
  - apply twice_once. intros c' Hc'. apply clampEnd_clamped, (clampEnd_Ok c c' Hc').
  - apply clampEnd_Ok.
  - apply twice_once. intros c' Hc'. apply unclampEnd_unclamped, (unclampEnd_Ok c c' Hc').
  - apply unclampEnd_Ok.
Qed.

End Clamping.

Section Editing.
Context {E : NurbsEvaluate}.

(** C8: [setControlPoint(i, pt)] has defined behaviour exactly for an index
    inside the control point vector; whenever it returns, control point [i]
    is [pt], every other control point is the one it was, there are as many
    as before, and the degree, the knot vector, the weights and the four
    flags are unchanged. *)
Theorem setControlPoint_frame (c : NurbsCurve) (i : Z) (pt : vecnt) :
  (in_range (cp_ c) i -> exists c', setControlPoint c i pt = Ok c')
  /\ (~ in_range (cp_ c) i -> setControlPoint c i pt = Undefined)
  /\ (forall c', setControlPoint c i pt = Ok c' ->
        cp_ c' !! Z.to_nat i = Some pt
        /\ (forall j, j <> Z.to_nat i -> cp_ c' !! j = cp_ c !! j)
        /\ length (cp_ c') = length (cp_ c)
        /\ deg_ c' = deg_ c /\ knots_ c' = knots_ c /\ w_ c' = w_ c
        /\ isRat_ c' = isRat_ c /\ isClamp0_ c' = isClamp0_ c
        /\ isClamp1_ c' = isClamp1_ c /\ isClosed_ c' = isClosed_ c).
Proof.
  unfold setControlPoint. destruct (decide (in_range (cp_ c) i)) as [Hi|Hi].
  - split; [eauto|]. split; [contradiction|].
    intros c' [= <-]. simpl. unfold in_range in Hi.
    split; [apply list_lookup_insert_eq; lia|].
    split; [intros j Hj; apply list_lookup_insert_ne; congruence|].
    split; [apply length_insert|]. auto 10.
  - split; [contradiction|]. split; [reflexivity|]. discriminate.
Qed.

(** C9: [setClosed(flag)] returns the curve it was called on: every member
    is unchanged for both values of [flag] and of [isClosed_]. *)
Theorem setClosed_unchanged (c : NurbsCurve) (flag : bool) :
  setClosed c flag = c.
Proof.
  unfold setClosed.
  destruct (flag && negb (isClosed_ c)), (negb flag && isClosed_ c); reflexivity.
Qed.

End Editing.

Section Reachability.
Context {E : NurbsEvaluate}.

Lemma ctor_knot_count s degree knots (controlPoints : list vecnt) c :
  NurbsCurve_ctor s degree knots controlPoints = Ok c ->
  knot_count_invariant c /\ isClamp0_ c = false /\ isClamp1_ c = false.
Proof.
  intros Hc. apply NurbsCurve_ctor_Ok in Hc as [Hrel ->].
  unfold knot_count_invariant. simpl. auto.
Qed.

(** Every method keeps the number of knots in step with the clamp flags. *)
Lemma call_clamped_knot_count m (c c' : NurbsCurve) :
  call m c = Ok c' ->
  length (knots_ c) = clamped_knot_count c ->
  length (knots_ c') = clamped_knot_count c'.
Proof.
  unfold clamped_knot_count.
  destruct m as [i pt|isRational| | | | |flag]; simpl.
  - unfold setControlPoint. destruct (decide _); [|discriminate].
    intros [= <-]. simpl. rewrite length_insert. auto.
  - intros [= <-]. auto.
  - unfold clampStart. destruct (isClamp0_ c) eqn:Hflag.
    + intros [= <-]. rewrite Hflag. auto.
    + destruct (at_ _ _); simpl; try discriminate.
      intros [= <-]. simpl. rewrite length_app, length_replicate. lia.
  - unfold unclampStart. destruct (isClamp0_ c) eqn:Hflag; simpl.
    + destruct (decide _); [|discriminate].
      intros [= <-]. simpl. rewrite length_drop. lia.
    + intros [= <-]. rewrite Hflag. auto.
  - unfold clampEnd. destruct (isClamp1_ c) eqn:Hflag.
    + intros [= <-]. rewrite Hflag. auto.
    + destruct (at_ _ _); simpl; try discriminate.
      intros [= <-]. simpl. rewrite length_app, length_replicate. lia.
  - unfold unclampEnd. destruct (isClamp1_ c) eqn:Hflag; simpl.
    + destruct (decide _); [|discriminate].
      intros [= <-]. simpl. rewrite length_take. lia.
    + intros [= <-]. rewrite Hflag. auto.
  - unfold setClosed.
    destruct (flag && negb (isClosed_ c)), (negb flag && isClosed_ c);
      intros [= <-]; auto.
Qed.

Lemma reachable_clamped_knot_count (c : NurbsCurve) :
  reachable c -> length (knots_ c) = clamped_knot_count c.
Proof.
  induction 1 as [s degree knots controlPoints c Hc | m c c' _ IH Hcall].
  - apply ctor_knot_count in Hc as (Hinv & H0 & H1).
    unfold clamped_knot_count. rewrite H0, H1. unfold knot_count_invariant in Hinv. lia.
  - exact (call_clamped_knot_count m c c' Hcall IH).
Qed.

(** C6 (amended): in every state reachable from the three-argument
    constructor the knot vector has degree + number of control points + 1
    knots, plus degree more for each clamp flag that is set; the knot-count
    relation itself holds in the states where neither flag is set. *)
Theorem reachable_knot_count (c : NurbsCurve) :
  reachable c ->
  length (knots_ c) = clamped_knot_count c
  /\ (isClamp0_ c = false -> isClamp1_ c = false -> knot_count_invariant c).
Proof.
  intros Hreach. apply reachable_clamped_knot_count in Hreach as Hcount.
  split; [exact Hcount|].
  intros H0 H1. unfold knot_count_invariant.
  unfold clamped_knot_count in Hcount. rewrite H0, H1 in Hcount. lia.
Qed.


End Reachability.

(** * The properties on [NurbsCurve2d] *)
Module Concrete.
Import Curve2d Examples.
Local Open Scope float_scope.

(** The evaluator modelled for [NurbsCurve2d] is sized as the spec says. *)
Lemma curveDerivatives_sized : derivatives_sized evaluate2d.
Proof.
  intros u degree knots controlPoints nDers _. simpl. unfold curveDerivatives.
  rewrite length_map, length_seq. reflexivity.
Qed.

Lemma line_constructed : NurbsCurve_ctor zeroed 3 clamped_knots collinear = Ok line.
Proof. reflexivity. Qed.

Lemma line_reachable : reachable line.
Proof. exact (reachable_ctor _ _ _ _ _ line_constructed). Qed.

Lemma line_clamped_reachable : reachable line_clamped.
Proof. apply (reachable_call ClampStart line); [exact line_reachable | reflexivity]. Qed.

Lemma line_rational_reachable : reachable line_rational.
Proof. apply (reachable_call (SetRational true) line); [exact line_reachable | reflexivity]. Qed.

Lemma coincident_reachable : reachable coincident.
Proof.
  apply (reachable_ctor (E := evaluate2d) zeroed 1 [0; 0; 1; 1] (cp_ coincident)).
  reflexivity.
Qed.

(** The spec's scenario: the cubic on four collinear points is the line
    (3u, 0), here at the two ends and at three inner parameters. *)
Example line_points :
  map (point line) [0; 0.25; 0.5; 0.75; 1]
  = [mkdvec2 0 0; mkdvec2 0.75 0; mkdvec2 1.5 0; mkdvec2 2.25 0; mkdvec2 3 0].
Proof. vm_compute. reflexivity. Qed.

Example line_tangent : tangent line 0.5 = Ok (mkdvec2 1 0).
Proof. vm_compute. reflexivity. Qed.

(** C3, the claim as stated fails: on the rational curve [line_rational],
    [pointAndDerivatives(0.5, 1, ptder)] called with an empty [ptder] leaves
    it empty, not of length 1 + 1. *)
Lemma pointAndDerivatives_rational_counterexample :
  reachable line_rational
  /\ isRat_ line_rational = true
  /\ pointAndDerivatives line_rational 0.5 1 [] = []
  /\ length (pointAndDerivatives line_rational 0.5 1 []) <> Z.to_nat (1 + 1).
Proof.
  split; [exact line_rational_reachable|].
  split; [reflexivity|]. split; [reflexivity|]. simpl. discriminate.
Qed.

(** Orders 0 to 2 on [line]; [line_rational] gives the empty [ptder] back. *)
Lemma pointAndDerivatives_size_witness :
  length (pointAndDerivatives line 0.5 2 []) = Z.to_nat (2 + 1)
  /\ pointAndDerivatives line_rational 0.5 2 [] = [].
Proof.
  split.
  - apply (pointAndDerivatives_size line 0.5 2 [] curveDerivatives_sized); [reflexivity | lia].
  - apply (pointAndDerivatives_size line_rational 0.5 2 [] curveDerivatives_sized). reflexivity.
Defined.

(** C4, the claim as stated fails: the two control points of [coincident]
    are the same point, its first derivative at 0.5 is the zero vector, of
    magnitude 0, and [tangent(0.5)] returns normally with the vector
    (nan, nan), whose length is not 1. *)
Lemma tangent_degenerate_counterexample :
  reachable coincident
  /\ pointAndDerivatives coincident 0.5 1 [] = [mkdvec2 1 1; mkdvec2 0 0]
  /\ norm (mkdvec2 0 0) = 0
  /\ tangent coincident 0.5 = Ok (mkdvec2 nan nan)
  /\ (norm (mkdvec2 nan nan) =? 1) = false.
Proof.
  split; [exact coincident_reachable|].
  repeat split; vm_compute; reflexivity.
Qed.

(** The tangent of [line] at 0.5 is the normalized second vector. *)
Lemma tangent_normalizes_unchecked_witness :
  exists C C',
    nurbsCurveDerivatives 0.5 (to_uint8 (deg_ line)) (knots_ line) (cp_ line) 1 = [C; C']
    /\ tangent line 0.5 = Ok (normalize C').
Proof.
  apply (tangent_normalizes_unchecked line 0.5); [exact curveDerivatives_sized | reflexivity].
Defined.

(** C5, the claim as stated fails: on [line_clamped], whose start is already
    clamped, [clampStart()] followed by [unclampStart()] ends with the eight
    knots of [line], not with the eleven it started from. *)
Lemma clamp_unclamp_clamped_counterexample :
  reachable line_clamped
  /\ clampStart line_clamped ≫= unclampStart = Ok line
  /\ knots_ line <> knots_ line_clamped.
Proof.
  split; [exact line_clamped_reachable|].
  split; [reflexivity | discriminate].
Qed.

(** Neither end of [line] is clamped: both round trips give [line] back. *)
Lemma clamp_unclamp_inverse_witness :
  clampStart line ≫= unclampStart = Ok line
  /\ clampEnd line ≫= unclampEnd = Ok line.
Proof.
  destruct (clamp_unclamp_inverse line) as [Hstart Hend]; [discriminate|].
  split; [apply Hstart | apply Hend]; reflexivity.
Defined.

(** C6, the claim as stated fails: [line_clamped] is [line] after
    [clampStart()]; it has 11 knots, degree 3 and 4 control points. *)
Lemma clampStart_breaks_knot_count_counterexample :
  clampStart line = Ok line_clamped
  /\ reachable line_clamped
  /\ ~ knot_count_invariant line_clamped.
Proof.
  split; [reflexivity|]. split; [exact line_clamped_reachable|].
  unfold knot_count_invariant. simpl. lia.
Qed.

(** [line_clamped], reached by the constructor and [clampStart()], has
    3 + 4 + 1 + 3 knots. *)
Lemma reachable_knot_count_witness :
  length (knots_ line_clamped) = clamped_knot_count line_clamped
  /\ (isClamp0_ line_clamped = false -> isClamp1_ line_clamped = false ->
      knot_count_invariant line_clamped).
Proof.
  apply (reachable_knot_count line_clamped).
  apply (reachable_call ClampStart line); [|reflexivity].
  apply (reachable_ctor (E := evaluate2d) zeroed 3 clamped_knots collinear). reflexivity.
Defined.

(** [setControlPoint(1, (5, 5))] on [line]: the call returns, and the
    knots and the other three control points are those of [line]. *)
Lemma setControlPoint_frame_witness :
  (exists c', setControlPoint line 1 (mkdvec2 5 5) = Ok c')
  /\ cp_ line_edited !! Z.to_nat 1 = Some (mkdvec2 5 5)
  /\ (forall j, j <> Z.to_nat 1 -> cp_ line_edited !! j = cp_ line !! j)
  /\ knots_ line_edited = knots_ line.
Proof.
  destruct (setControlPoint_frame line 1 (mkdvec2 5 5)) as (Hdefined & _ & Hframe).
  split; [apply Hdefined; unfold in_range; simpl; lia|].
  destruct (Hframe line_edited) as (Hi & Hother & _ & _ & Hknots & _); [reflexivity|].
  auto.
Defined.

(** The four clamp operations on [line] and on [line_clamped]. *)
Lemma clamp_operations_idempotent_witness :
  clampStart line ≫= clampStart = clampStart line
  /\ (isClamp0_ line_clamped = true /\ start_frame line line_clamped)
  /\ unclampStart line_clamped ≫= unclampStart = unclampStart line_clamped
  /\ (isClamp0_ line = false /\ start_frame line_clamped line).
Proof.
  destruct (clamp_operations_idempotent line) as ((Htwice & Hflag) & _).
  destruct (clamp_operations_idempotent line_clamped) as (_ & (Htwice' & Hflag') & _).
  split; [exact Htwice|]. split; [apply Hflag; reflexivity|].
  split; [exact Htwice'|]. apply Hflag'. reflexivity.
Defined.

Example setControlPoint_line :
  setControlPoint line 1 (mkdvec2 5 5) = Ok line_edited
  /\ setControlPoint line 4 (mkdvec2 5 5) = Undefined
  /\ setControlPoint line (-1) (mkdvec2 5 5) = Undefined.
Proof. repeat split. Qed.

(** C10, the claim as stated fails: degree 0, the single knot 0 and no
    control point satisfy the knot-count relation; the curve has no weight
    and no control point, so after [setRational(true)] the weights are not
    the shorter sequence. *)
Lemma point_rational_pointless_counterexample :
  NurbsCurve_ctor zeroed 0 [0] [] = Ok pointless
  /\ w_ (setRational pointless true) = []
  /\ point (setRational pointless true) 0
     = nurbsRationalCurvePoint 0 (to_uint8 0) [0] [] []
  /\ ~ (length (w_ (setRational pointless true)) < length (cp_ (setRational pointless true)))%nat.
Proof.
  split; [reflexivity|]. split; [reflexivity|]. split; [reflexivity|]. simpl. lia.
Qed.

(** [line] has four control points and no weight. *)
Lemma point_rational_without_weights_witness :
  w_ (setRational line true) = []
  /\ cp_ (setRational line true) = collinear
  /\ point (setRational line true) 0.5
     = nurbsRationalCurvePoint 0.5 (to_uint8 3) clamped_knots collinear []
  /\ (collinear <> [] ->
      (length (w_ (setRational line true)) < length (cp_ (setRational line true)))%nat).
Proof.
  apply (point_rational_without_weights (E := evaluate2d) zeroed 3 clamped_knots collinear line 0.5).
  reflexivity.
Defined.

End Concrete.

(** * Further properties of the class *)

Section Accessors.
Context {E : NurbsEvaluate}.

(** X1: when the three-argument constructor returns a curve, the arguments
    satisfied the knot-count relation and the curve stores exactly that
    degree, knot vector and control point sequence; it has no weights, and
    is neither rational nor clamped at either end. *)
Theorem NurbsCurve_ctor_stores_arguments s degree knots (controlPoints : list vecnt) c :
  NurbsCurve_ctor s degree knots controlPoints = Ok c ->
  knot_count_invariant c
  /\ deg_ c = degree /\ knots_ c = knots /\ cp_ c = controlPoints /\ w_ c = []
  /\ isRat_ c = false /\ isClamp0_ c = false /\ isClamp1_ c = false.
Proof.
  intros Hc. apply NurbsCurve_ctor_Ok in Hc as [Hrel ->].
  unfold knot_count_invariant. simpl. auto 10.
Qed.

(** X2: on arguments that violate the knot-count relation the
    four-argument constructor leaves by the exception of the three-argument
    one, whatever the weights; it returns a curve only for arguments that
    satisfy the relation. *)
Theorem NurbsCurve_ctor_w_throws_iff_mismatch s tmp degree knots
    (controlPoints : list vecnt) weights :
  (NurbsCurve_ctor_w s tmp degree knots controlPoints weights
   = Throw "nKnots != degree + nCtrlPts + 1"
   <-> length knots <> degree + length controlPoints + 1)
  /\ ((exists c, NurbsCurve_ctor_w s tmp degree knots controlPoints weights = Ok c)
      <-> length knots = degree + length controlPoints + 1).
Proof.
  destruct (decide (length knots = degree + length controlPoints + 1)) as [Hrel|Hrel].
  - rewrite (NurbsCurve_ctor_w_valid _ _ _ _ _ _ Hrel).
    split; [split; [discriminate | contradiction] | split; eauto].
  - rewrite (NurbsCurve_ctor_w_invalid _ _ _ _ _ _ Hrel).
    split; [split; auto | split; [intros [c Hc]; discriminate | contradiction]].
Qed.

Lemma numControlPoints_small (c : NurbsCurve) :
  (Z.of_nat (length (cp_ c)) < 2 ^ 31)%Z ->
  numControlPoints c = Z.of_nat (length (cp_ c)).
Proof.
  intros Hsmall. unfold numControlPoints.
  rewrite Z.mod_small by lia. lia.
Qed.

(** X3: for a curve of fewer than 2^31 control points, [controlPoint(i)] is
    defined exactly for 0 <= i < [numControlPoints()], and then returns the
    element [i] of [controlPoints()]; for a negative index or one from
    [numControlPoints()] on it reads outside the vector. *)
Theorem controlPoint_bounds (c : NurbsCurve) (i : Z) :
  (Z.of_nat (length (cp_ c)) < 2 ^ 31)%Z ->
  ((0 <= i < numControlPoints c)%Z ->
     exists pt, controlPoint c i = Ok pt /\ controlPoints c !! Z.to_nat i = Some pt)
  /\ (~ (0 <= i < numControlPoints c)%Z -> controlPoint c i = Undefined).
Proof.
  intros Hsmall. rewrite (numControlPoints_small c Hsmall).
  unfold controlPoint, controlPoints. split; intros Hi.
  - destruct (at_in_range (cp_ c) i Hi) as [pt Hpt].
    exists pt. split; [exact Hpt|]. apply at_Ok in Hpt as [_ Hpt]. exact Hpt.
  - apply at_out_of_range. exact Hi.
Qed.

Lemma in_range_insert {A} (v : list A) (i j : Z) (x : A) :
  in_range (<[Z.to_nat i := x]> v) j <-> in_range v j.
Proof. unfold in_range. rewrite length_insert. reflexivity. Qed.

Lemma at_insert_eq {A} (v : list A) (i : Z) (x : A) :
  in_range v i -> at_ (<[Z.to_nat i := x]> v) i = Ok x.
Proof.
  intros Hi. apply at_Ok. split; [apply in_range_insert; exact Hi|].
  apply list_lookup_insert_eq. unfold in_range in Hi. lia.
Qed.

Lemma at_insert_ne {A} (v : list A) (i j : Z) (x : A) :
  in_range v i -> j <> i -> at_ (<[Z.to_nat i := x]> v) j = at_ v j.
Proof.
  intros Hi Hj. unfold in_range in Hi. unfold at_. destruct (decide (in_range v j)) as [Hr|Hr].
  - rewrite decide_True by (apply in_range_insert; exact Hr).
    rewrite list_lookup_insert_ne by (unfold in_range in Hr; lia). reflexivity.
  - rewrite decide_False by (rewrite in_range_insert; exact Hr). reflexivity.
Qed.

(** X4: reading back after [setControlPoint(i, pt)]: [controlPoint(i)]
    returns [pt], [controlPoint(j)] for any other index has the outcome it
    had before, and [numControlPoints()] is unchanged. *)
Theorem controlPoint_setControlPoint (c c' : NurbsCurve) (i : Z) (pt : vecnt) :
  setControlPoint c i pt = Ok c' ->
  controlPoint c' i = Ok pt
  /\ (forall j, j <> i -> controlPoint c' j = controlPoint c j)
  /\ numControlPoints c' = numControlPoints c.
Proof.
  unfold setControlPoint. destruct (decide (in_range (cp_ c) i)) as [Hi|Hi]; [|discriminate].
  intros [= <-]. unfold controlPoint, numControlPoints. simpl.
  split; [apply at_insert_eq; exact Hi|].
  split; [intros j Hj; apply at_insert_ne; assumption|].
  rewrite length_insert. reflexivity.
Qed.

(** No method writes [deg_], [w_] or [isClosed_], and none changes how
    many control points there are. *)
Lemma call_keeps (m : method) (c c' : NurbsCurve) :
  call m c = Ok c' ->
  deg_ c' = deg_ c /\ length (cp_ c') = length (cp_ c)
  /\ w_ c' = w_ c /\ isClosed_ c' = isClosed_ c.
Proof.
  destruct m as [i pt|isRational| | | | |flag]; simpl.
  - unfold setControlPoint. destruct (decide _); [|discriminate].
    intros [= <-]. simpl. rewrite length_insert. auto.
  - intros [= <-]. auto.
  - intros Hc. apply clampStart_Ok in Hc as (_ & Hd & -> & Hw & _ & _ & Hcl). auto.
  - intros Hc. apply unclampStart_Ok in Hc as (_ & Hd & -> & Hw & _ & _ & Hcl). auto.
  - intros Hc. apply clampEnd_Ok in Hc as (_ & Hd & -> & Hw & _ & _ & Hcl). auto.
  - intros Hc. apply unclampEnd_Ok in Hc as (_ & Hd & -> & Hw & _ & _ & Hcl). auto.
  - unfold setClosed.
    destruct (flag && negb (isClosed_ c)), (negb flag && isClosed_ c); intros [= <-]; auto.
Qed.

Lemma reachable_from_keeps (c0 c : NurbsCurve) :
  reachable_from c0 c ->
  deg_ c = deg_ c0 /\ length (cp_ c) = length (cp_ c0)
  /\ w_ c = w_ c0 /\ isClosed_ c = isClosed_ c0.
Proof.
  induction 1 as [|m c c' _ IH Hcall]; [auto|].
  apply call_keeps in Hcall as (-> & -> & -> & ->). exact IH.
Qed.

(** X5: whatever sequence of methods is called on a curve, its degree, its
    number of control points, its weights and its closed flag stay the ones
    it started with: only the constructors set them. *)
Theorem methods_keep_degree_count_weights (c0 c : NurbsCurve) :
  reachable_from c0 c ->
  deg_ c = deg_ c0 /\ numControlPoints c = numControlPoints c0
  /\ w_ c = w_ c0 /\ isClosed_ c = isClosed_ c0.
Proof.
  intros Hreach. apply reachable_from_keeps in Hreach as (Hd & Hn & Hw & Hcl).
  unfold numControlPoints. rewrite Hn. auto.
Qed.

Lemma reachable_reachable_from (c : NurbsCurve) :
  reachable c <->
  exists s degree knots controlPoints c0,
    NurbsCurve_ctor s degree knots controlPoints = Ok c0 /\ reachable_from c0 c.
Proof.
  split.
  - induction 1 as [s degree knots controlPoints c Hc | m c c' _ IH Hcall].
    + exists s, degree, knots, controlPoints, c. split; [exact Hc | constructor].
    + destruct IH as (s & degree & knots & controlPoints & c0 & Hc0 & Hreach).
      exists s, degree, knots, controlPoints, c0. split; [exact Hc0|].
      exact (reachable_from_call c0 m c c' Hreach Hcall).
  - intros (s & degree & knots & controlPoints & c0 & Hc0 & Hreach).
    induction Hreach as [|m c c' _ IH Hcall].
    + exact (reachable_ctor s degree knots controlPoints c0 Hc0).
    + exact (reachable_call m c c' IH Hcall).
Qed.

(** X6: no member function assigns [w_], so a curve reached from the
    three-argument constructor never has a weight; whenever such a curve is
    rational, [point(u)] is the rational evaluator's result on the empty
    weight sequence. *)
Theorem reachable_has_no_weights (c : NurbsCurve) u :
  reachable c ->
  w_ c = []
  /\ (isRat_ c = true ->
      point c u = nurbsRationalCurvePoint u (to_uint8 (deg_ c)) (knots_ c) (cp_ c) []).
Proof.
  intros Hreach.
  apply reachable_reachable_from in Hreach
    as (s & degree & knots & controlPoints & c0 & Hc0 & Hreach).
  apply reachable_from_keeps in Hreach as (_ & _ & Hw & _).
  apply NurbsCurve_ctor_Ok in Hc0 as [_ ->]. simpl in Hw.
  split; [exact Hw|]. intros Hrat.
  unfold point. rewrite Hrat, Hw. reflexivity.
Qed.

Lemma to_uint8_wraps (n : nat) : to_uint8 (n + 256) = to_uint8 n.
Proof.
  unfold to_uint8. replace (n + 256) with (n + 1 * 256) by lia.
  apply Nat.Div0.mod_add.
Qed.

(** X7: the evaluators take the degree as a [uint8_t], so a curve whose
    stored degree is 256 higher is evaluated exactly like the curve itself:
    [point], [pointAndDerivatives] and [tangent] see [deg_] modulo 256
    only. *)
Theorem evaluation_degree_wraps (c : NurbsCurve) u nDers ptder :
  point (with_deg (deg_ c + 256) c) u = point c u
  /\ pointAndDerivatives (with_deg (deg_ c + 256) c) u nDers ptder
     = pointAndDerivatives c u nDers ptder
  /\ tangent (with_deg (deg_ c + 256) c) u = tangent c u.
Proof.
  unfold tangent, pointAndDerivatives, point. simpl.
  rewrite to_uint8_wraps. auto.
Qed.

(** X8: the curve the four-argument constructor returns has no control
    point and no knot: every index of [controlPoint] and [setControlPoint]
    is out of range, [tangent] reads outside the empty [ders], and
    [clampStart] and [clampEnd] read outside the empty knot vector unless
    the flag left in the storage makes them return at once. *)
Theorem NurbsCurve_ctor_w_curve_is_empty s tmp degree knots (controlPoints : list vecnt)
    weights c :
  NurbsCurve_ctor_w s tmp degree knots controlPoints weights = Ok c ->
  numControlPoints c = 0%Z
  /\ (forall i, controlPoint c i = Undefined)
  /\ (forall i pt, setControlPoint c i pt = Undefined)
  /\ (forall u, tangent c u = Undefined)
  /\ (forall u, point c u
               = nurbsRationalCurvePoint u (to_uint8 (st_deg s)) [] [] weights)
  /\ clampStart c = (if st_isClamp0 s then Ok c else Undefined)
  /\ clampEnd c = (if st_isClamp1 s then Ok c else Undefined).
Proof.
  intros Hc.
  destruct (decide (length knots = degree + length controlPoints + 1)) as [Hrel|Hrel].
  - rewrite (NurbsCurve_ctor_w_valid _ _ _ _ _ _ Hrel) in Hc. injection Hc as <-.
    split; [reflexivity|].
    split; [intros i; apply at_out_of_range; unfold in_range; simpl; lia|].
    split; [intros i pt; unfold setControlPoint; simpl;
            rewrite decide_False by (unfold in_range; simpl; lia); reflexivity|].
    split; [intros u; reflexivity|]. split; [intros u; reflexivity|].
    unfold clampStart, clampEnd. simpl.
    destruct (st_isClamp0 s), (st_isClamp1 s); split; reflexivity.
  - rewrite (NurbsCurve_ctor_w_invalid _ _ _ _ _ _ Hrel) in Hc. discriminate.
Qed.

End Accessors.

Section ClampStructure.
Context {E : NurbsEvaluate}.

Lemma at_first {A} (v l : list A) : v <> [] -> at_ (v ++ l) 0 = at_ v 0.
Proof.
  destruct v as [|a v]; [contradiction|]. intros _.
  unfold at_. rewrite !decide_True by (unfold in_range; simpl; lia). reflexivity.
Qed.

Lemma at_back {A} (l v : list A) :
  v <> [] ->
  at_ (l ++ v) (Z.of_nat (length (l ++ v)) - 1) = at_ v (Z.of_nat (length v) - 1).
Proof.
  intros Hv. destruct (nonempty_snoc v Hv) as (v' & a & ->).
  rewrite app_assoc, !at_last. reflexivity.
Qed.

Lemma at_0_head {A} (v : list A) : at_ v 0 = from_option Ok Undefined (head v).
Proof.
  destruct v as [|a v]; [reflexivity|].
  unfold at_. rewrite decide_True by (unfold in_range; simpl; lia). reflexivity.
Qed.

Lemma at_back_last {A} (v : list A) :
  at_ v (Z.of_nat (length v) - 1) = from_option Ok Undefined (last v).
Proof.
  destruct (decide (v = [])) as [->|Hv]; [reflexivity|].
  destruct (nonempty_snoc v Hv) as (v' & a & ->).
  rewrite at_last, last_snoc. reflexivity.
Qed.

(** The knot vector of a curve reached from a constructed one, for the
    theorems below: the constructor's knots, extended as the flags say. *)
Lemma reachable_from_knots s degree knots (controlPoints : list vecnt) c0 c :
  NurbsCurve_ctor s degree knots controlPoints = Ok c0 ->
  reachable_from c0 c ->
  deg_ c = degree /\ knots <> []
  /\ knots_ c = clamped degree knots (isClamp0_ c) (isClamp1_ c).
Proof.
  intros Hc0 Hreach. apply NurbsCurve_ctor_Ok in Hc0 as [Hrel ->].
  assert (Hk : knots <> []) by (intros ->; simpl in Hrel; lia).
  induction Hreach as [|m c c' _ (Hdeg & _ & Hknots) Hcall].
  { unfold clamped. simpl. rewrite app_nil_r. auto. }
  split; [|split; [exact Hk|]].
  { apply call_keeps in Hcall as (-> & _). exact Hdeg. }
  destruct (head knots) as [k0|] eqn:Hhead; [|destruct knots; [contradiction|discriminate]].
  destruct (last knots) as [kn|] eqn:Hlast;
    [|apply last_None in Hlast; contradiction].
  unfold clamped in *. rewrite Hhead, Hlast in *. simpl in *.
  destruct m as [i pt|isRational| | | | |flag]; simpl in Hcall.
  - unfold setControlPoint in Hcall. destruct (decide _); [|discriminate].
    injection Hcall as <-. exact Hknots.
  - injection Hcall as <-. exact Hknots.
  - unfold clampStart in Hcall. destruct (isClamp0_ c) eqn:Hflag.
    + injection Hcall as <-. rewrite Hflag. exact Hknots.
    + rewrite Hknots in Hcall. simpl in Hcall.
      rewrite at_first, at_0_head, Hhead in Hcall by exact Hk. simpl in Hcall.
      injection Hcall as <-. simpl. rewrite Hdeg. reflexivity.
  - unfold unclampStart in Hcall. destruct (isClamp0_ c) eqn:Hflag; simpl in Hcall.
    + destruct (decide _); [|discriminate]. injection Hcall as <-. simpl.
      rewrite Hknots, Hdeg.
      rewrite drop_app_length' by (rewrite length_replicate; reflexivity). reflexivity.
    + injection Hcall as <-. rewrite Hflag. exact Hknots.
  - unfold clampEnd in Hcall. destruct (isClamp1_ c) eqn:Hflag.
    + injection Hcall as <-. rewrite Hflag. exact Hknots.
    + rewrite Hknots, app_nil_r in Hcall.
      rewrite at_back, at_back_last, Hlast in Hcall by exact Hk. simpl in Hcall.
      injection Hcall as <-. simpl. rewrite Hdeg, <- app_assoc. reflexivity.
  - unfold unclampEnd in Hcall. destruct (isClamp1_ c) eqn:Hflag; simpl in Hcall.
    + destruct (decide _); [|discriminate]. injection Hcall as <-. simpl.
      rewrite Hknots, Hdeg, app_assoc.
      rewrite take_app_length' by (rewrite !length_app, length_replicate; lia).
      rewrite app_nil_r. reflexivity.
    + injection Hcall as <-. rewrite Hflag. exact Hknots.
  - unfold setClosed in Hcall.
    destruct (flag && negb (isClosed_ c)), (negb flag && isClosed_ c);
      injection Hcall as <-; exact Hknots.
Qed.

(** X9: in every state reached from a curve the three-argument constructor
    built, the knot vector is the constructor's knot vector with [degree]
    copies of its first knot in front exactly when [isClamp0_] is set and
    [degree] copies of its last knot at the end exactly when [isClamp1_] is
    set; nothing else ever changes the knots. *)
Theorem reachable_knots_clamped s degree knots (controlPoints : list vecnt) c0 c :
  NurbsCurve_ctor s degree knots controlPoints = Ok c0 ->
  reachable_from c0 c ->
  knots_ c = clamped degree knots (isClamp0_ c) (isClamp1_ c).
Proof.
  intros Hc0 Hreach.
  apply (reachable_from_knots s degree knots controlPoints c0 c Hc0) in Hreach.
  apply Hreach.
Qed.

(** X10: from any such state, [unclampStart()] followed by [unclampEnd()]
    returns a curve whose knot vector is exactly the one the constructor
    was given, with both clamp flags cleared. *)
Theorem unclamp_both_restores_knots s degree knots (controlPoints : list vecnt) c0 c :
  NurbsCurve_ctor s degree knots controlPoints = Ok c0 ->
  reachable_from c0 c ->
  exists c', unclampStart c ≫= unclampEnd = Ok c'
    /\ knots_ c' = knots /\ isClamp0_ c' = false /\ isClamp1_ c' = false.
Proof.
  intros Hc0 Hreach.
  assert (Hreach1 : forall c1, unclampStart c = Ok c1 -> reachable_from c0 c1)
    by (intros c1 H1; exact (reachable_from_call c0 UnclampStart c c1 Hreach H1)).
  assert (Hreach2 : forall c1 c2, unclampStart c = Ok c1 -> unclampEnd c1 = Ok c2 ->
                                  reachable_from c0 c2).
  { intros c1 c2 H1 H2.
    exact (reachable_from_call c0 UnclampEnd c1 c2 (Hreach1 c1 H1) H2). }
  destruct (reachable_from_knots s degree knots controlPoints c0 c Hc0 Hreach)
    as (Hdeg & Hk & Hknots).
  assert (Hdef1 : exists c1, unclampStart c = Ok c1).
  { unfold unclampStart. destruct (isClamp0_ c) eqn:Hflag; simpl; [|eauto].
    rewrite decide_True; [eauto|].
    rewrite Hknots, Hdeg. unfold clamped.
    destruct (head knots) eqn:Hhead; [|destruct knots; [contradiction|discriminate]].
    simpl. rewrite length_app, length_replicate. lia. }
  destruct Hdef1 as [c1 H1]. rewrite H1. simpl.
  destruct (reachable_from_knots s degree knots controlPoints c0 c1 Hc0 (Hreach1 c1 H1))
    as (Hdeg1 & _ & Hknots1).
  apply unclampStart_Ok in H1 as H1'. destruct H1' as (Hflag1 & _).
  assert (Hdef2 : exists c2, unclampEnd c1 = Ok c2).
  { unfold unclampEnd. destruct (isClamp1_ c1) eqn:Hflag; simpl; [|eauto].
    rewrite decide_True; [eauto|].
    rewrite Hknots1, Hdeg1, Hflag1. unfold clamped.
    destruct (last knots) eqn:Hlast; [|apply last_None in Hlast; contradiction].
    simpl. rewrite length_app, length_replicate. lia. }
  destruct Hdef2 as [c2 H2]. exists c2. split; [exact H2|].
  destruct (reachable_from_knots s degree knots controlPoints c0 c2 Hc0 (Hreach2 c1 c2 H1 H2))
    as (_ & _ & Hknots2).
  apply unclampEnd_Ok in H2 as (Hflag2 & _ & _ & _ & _ & Hflag0 & _).
  rewrite Hflag0, Hflag1, Hflag2 in Hknots2. unfold clamped in Hknots2.
  simpl in Hknots2. rewrite app_nil_r in Hknots2. rewrite Hflag0. auto.
Qed.

(** X11: on a state reached from a constructed curve, an end that is
    clamped can be unclamped and clamped again: [unclampStart()] followed by
    [clampStart()] gives back the curve it started from, and so does
    [unclampEnd()] followed by [clampEnd()], because the knots a clamp
    inserts are copies of the end knot that is still there. *)
Theorem unclamp_clamp_inverse s degree knots (controlPoints : list vecnt) c0 c :
  NurbsCurve_ctor s degree knots controlPoints = Ok c0 ->
  reachable_from c0 c ->
  (isClamp0_ c = true -> unclampStart c ≫= clampStart = Ok c)
  /\ (isClamp1_ c = true -> unclampEnd c ≫= clampEnd = Ok c).
Proof.
  intros Hc0 Hreach.
  destruct (reachable_from_knots s degree knots controlPoints c0 c Hc0 Hreach)
    as (Hdeg & Hk & Hknots).
  destruct (head knots) as [k0|] eqn:Hhead; [|destruct knots; [contradiction|discriminate]].
  destruct (last knots) as [kn|] eqn:Hlast; [|apply last_None in Hlast; contradiction].
  unfold clamped in Hknots. rewrite Hhead, Hlast in Hknots. simpl in Hknots.
  destruct c as [deg ks cp w rat f0 f1 cl]. simpl in *. subst deg.
  split; intros ->.
  - unfold unclampStart. simpl.
    rewrite decide_True by (rewrite Hknots, length_app, length_replicate; lia).
    simpl. unfold clampStart. simpl. rewrite Hknots.
    rewrite drop_app_length' by (rewrite length_replicate; reflexivity).
    rewrite at_first, at_0_head, Hhead by exact Hk. reflexivity.
  - unfold unclampEnd. simpl.
    rewrite decide_True by (rewrite Hknots, !length_app; destruct f0; simpl;
                            rewrite ?length_replicate; lia).
    simpl. unfold clampEnd. simpl. rewrite Hknots, app_assoc.
    rewrite take_app_length' by (rewrite !length_app, length_replicate; lia).
    rewrite at_back, at_back_last, Hlast by exact Hk. reflexivity.
Qed.

Lemma clampStart_then (c : NurbsCurve) (op : NurbsCurve -> outcome NurbsCurve) :
  isClamp0_ c = true -> clampStart c ≫= op = op c.
Proof. intros Hflag. rewrite (clampStart_clamped c Hflag). reflexivity. Qed.

Lemma clampEnd_then (c : NurbsCurve) (op : NurbsCurve -> outcome NurbsCurve) :
  isClamp1_ c = true -> clampEnd c ≫= op = op c.
Proof. intros Hflag. rewrite (clampEnd_clamped c Hflag). reflexivity. Qed.

(** X12: clamping the two ends commutes on every curve: [clampStart()]
    followed by [clampEnd()] has the outcome of [clampEnd()] followed by
    [clampStart()], the same curve when both return and undefined behaviour
    in both orders otherwise. *)
Theorem clampStart_clampEnd_commute (c : NurbsCurve) :
  clampStart c ≫= clampEnd = clampEnd c ≫= clampStart.
Proof.
  destruct (isClamp0_ c) eqn:H0.
  - rewrite (clampStart_then c clampEnd H0).
    destruct (clampEnd c) as [c'| |] eqn:Hend; simpl; try reflexivity.
    apply clampEnd_Ok in Hend as (_ & _ & _ & _ & _ & Hflag & _).
    symmetry. apply clampStart_clamped. congruence.
  - destruct (isClamp1_ c) eqn:H1.
    + rewrite (clampEnd_then c clampStart H1).
      destruct (clampStart c) as [c'| |] eqn:Hstart; simpl; try reflexivity.
      apply clampStart_Ok in Hstart as (_ & _ & _ & _ & _ & Hflag & _).
      apply clampEnd_clamped. congruence.
    + destruct c as [deg ks cp w rat f0 f1 cl]. simpl in *. subst f0 f1.
      unfold clampStart, clampEnd. simpl.
      destruct (decide (ks = [])) as [->|Hks]; [reflexivity|].
      rewrite at_0_head, at_back_last.
      destruct (head ks) as [k0|] eqn:Hhead; [|destruct ks; [contradiction|discriminate]].
      destruct (last ks) as [kn|] eqn:Hlast; [|apply last_None in Hlast; contradiction].
      simpl. rewrite at_back, at_back_last, Hlast by exact Hks.
      rewrite at_first, at_0_head, Hhead by exact Hks.
      simpl. unfold with_isClamp0, with_isClamp1, with_knots. simpl.
      rewrite app_assoc. reflexivity.
Qed.

End ClampStructure.

Section Definedness.
Context {E : NurbsEvaluate}.


(** X14: [tangent(u)] returns exactly when [pointAndDerivatives(u, 1, ders)]
    leaves at least two vectors in the empty [ders] it is given, and reads
    outside [ders] otherwise; on a rational curve, where [ders] stays
    empty, it never returns. *)
Theorem tangent_defined_iff (c : NurbsCurve) u :
  ((exists v, tangent c u = Ok v) <-> 2 <= length (pointAndDerivatives c u 1 []))
  /\ (tangent c u = Undefined <-> length (pointAndDerivatives c u 1 []) < 2)
  /\ (isRat_ c = true -> tangent c u = Undefined).
Proof.
  assert (Hrange : in_range (pointAndDerivatives c u 1 []) 1
                   <-> 2 <= length (pointAndDerivatives c u 1 []))
    by (unfold in_range; lia).
  unfold tangent.
  destruct (decide (in_range (pointAndDerivatives c u 1 []) 1)) as [Hi|Hi].
  - destruct (at_in_range _ _ Hi) as [d ->]. simpl. apply Hrange in Hi as Hlen.
    split; [split; eauto|]. split; [split; [discriminate | lia]|].
    intros Hrat. unfold pointAndDerivatives in Hlen. rewrite Hrat in Hlen.
    simpl in Hlen. lia.
  - rewrite (at_out_of_range _ _ Hi). simpl.
    assert (Hlen : length (pointAndDerivatives c u 1 []) < 2)
      by (destruct (decide (2 <= length (pointAndDerivatives c u 1 []))) as [H|H];
          [apply Hrange in H; contradiction | lia]).
    split; [split; [intros [v Hv]; discriminate | lia]|].
    split; [split; auto | auto].
Qed.

End Definedness.

(** * The further properties on [NurbsCurve2d] *)
Module ConcreteFurther.
Import Curve2d Examples.
Local Open Scope float_scope.

(** [line] is what the constructor returns for its own members. *)
Lemma NurbsCurve_ctor_stores_arguments_witness :
  knot_count_invariant line
  /\ deg_ line = 3%nat /\ knots_ line = clamped_knots /\ cp_ line = collinear /\ w_ line = []
  /\ isRat_ line = false /\ isClamp0_ line = false /\ isClamp1_ line = false.
Proof.
  apply (NurbsCurve_ctor_stores_arguments (E := evaluate2d) zeroed 3 clamped_knots collinear line).
  reflexivity.
Defined.

(** Index 2 of the four control points of [line] is inside, index 4 is the
    first one outside. *)
Lemma controlPoint_bounds_witness :
  (exists pt, controlPoint line 2 = Ok pt /\ controlPoints line !! Z.to_nat 2 = Some pt)
  /\ controlPoint line 4 = Undefined.
Proof.
  split.
  - apply (controlPoint_bounds line 2); [reflexivity|]. split; [discriminate | reflexivity].
  - apply (controlPoint_bounds line 4); [reflexivity|]. intros [_ H]. discriminate H.
Defined.

(** [line_edited] is [line] after [setControlPoint(1, (5, 5))]. *)
Lemma controlPoint_setControlPoint_witness :
  controlPoint line_edited 1 = Ok (mkdvec2 5 5)
  /\ (forall j, j <> 1%Z -> controlPoint line_edited j = controlPoint line j)
  /\ numControlPoints line_edited = numControlPoints line.
Proof.
  apply (controlPoint_setControlPoint line line_edited 1 (mkdvec2 5 5)). reflexivity.
Defined.

(** Clamping both ends of [line] changes neither degree, number of control
    points, weights nor closed flag. *)
Lemma methods_keep_degree_count_weights_witness :
  deg_ line_clamped_both = deg_ line
  /\ numControlPoints line_clamped_both = numControlPoints line
  /\ w_ line_clamped_both = w_ line /\ isClosed_ line_clamped_both = isClosed_ line.
Proof.
  apply (methods_keep_degree_count_weights line line_clamped_both).
  apply (reachable_from_call line ClampEnd line_clamped); [|reflexivity].
  apply (reachable_from_call line ClampStart line); [constructor | reflexivity].
Defined.

(** [line_rational] is reached by the constructor and [setRational(true)]. *)
Lemma reachable_has_no_weights_witness :
  w_ line_rational = []
  /\ (isRat_ line_rational = true ->
      point line_rational 0.5
      = nurbsRationalCurvePoint 0.5 (to_uint8 3) clamped_knots collinear []).
Proof.
  apply (reachable_has_no_weights line_rational 0.5).
  apply (reachable_call (SetRational true) line); [|reflexivity].
  apply (reachable_ctor (E := evaluate2d) zeroed 3 clamped_knots collinear). reflexivity.
Defined.

(** [line_weighted] is what the four-argument constructor returns for the
    arguments of [line] and four unit weights. *)
Lemma NurbsCurve_ctor_w_curve_is_empty_witness :
  numControlPoints line_weighted = 0%Z
  /\ (forall i, controlPoint line_weighted i = Undefined)
  /\ (forall i pt, setControlPoint line_weighted i pt = Undefined)
  /\ (forall u, tangent line_weighted u = Undefined)
  /\ (forall u, point line_weighted u = nurbsRationalCurvePoint u (to_uint8 0) [] [] [1; 1; 1; 1])
  /\ clampStart line_weighted = Undefined
  /\ clampEnd line_weighted = Undefined.
Proof.
  apply (NurbsCurve_ctor_w_curve_is_empty (E := evaluate2d)
           zeroed zeroed 3 clamped_knots collinear [1; 1; 1; 1] line_weighted).
  reflexivity.
Defined.

(** The knots of [line_clamped_both] are three copies of 0, the knots of
    [line], and three copies of 1. *)
Lemma reachable_knots_clamped_witness :
  knots_ line_clamped_both = clamped 3 clamped_knots true true.
Proof.
  apply (reachable_knots_clamped (E := evaluate2d) zeroed 3 clamped_knots collinear
           line line_clamped_both); [reflexivity|].
  apply (reachable_from_call line ClampEnd line_clamped); [|reflexivity].
  apply (reachable_from_call line ClampStart line); [constructor | reflexivity].
Defined.

Lemma unclamp_both_restores_knots_witness :
  exists c', unclampStart line_clamped_both ≫= unclampEnd = Ok c'
    /\ knots_ c' = clamped_knots /\ isClamp0_ c' = false /\ isClamp1_ c' = false.
Proof.
  apply (unclamp_both_restores_knots (E := evaluate2d) zeroed 3 clamped_knots collinear
           line line_clamped_both); [reflexivity|].
  apply (reachable_from_call line ClampEnd line_clamped); [|reflexivity].
  apply (reachable_from_call line ClampStart line); [constructor | reflexivity].
Defined.

Lemma unclamp_clamp_inverse_witness :
  unclampStart line_clamped_both ≫= clampStart = Ok line_clamped_both
  /\ unclampEnd line_clamped_both ≫= clampEnd = Ok line_clamped_both.
Proof.
  destruct (unclamp_clamp_inverse (E := evaluate2d) zeroed 3 clamped_knots collinear
              line line_clamped_both) as [Hstart Hend]; [reflexivity| |].
  - apply (reachable_from_call line ClampEnd line_clamped); [|reflexivity].
    apply (reachable_from_call line ClampStart line); [constructor | reflexivity].
  - split; [apply Hstart | apply Hend]; reflexivity.
Defined.

Example clamp_both_orders :
  clampStart line ≫= clampEnd = Ok line_clamped_both
  /\ clampEnd line ≫= clampStart = Ok line_clamped_both.
Proof. split; reflexivity. Qed.


(** A call with an index: [setControlPoint(3, pt)] on [line]. *)
Example setControlPoint_defined_on_line :
  exists c', call (SetControlPoint 3 (mkdvec2 7 7)) line = Ok c'.
Proof. eexists. reflexivity. Qed.

(** [line_rational] has no tangent; [line] has one. *)
Lemma tangent_defined_iff_witness :
  tangent line_rational 0.5 = Undefined /\ exists v, tangent line 0.5 = Ok v.
Proof.
  split.
  - apply (tangent_defined_iff line_rational 0.5). reflexivity.
  - apply (tangent_defined_iff line 0.5). vm_compute. lia.
Defined.

End ConcreteFurther.
